(** * json2html: rendering an array of flat records as an HTML table

    A shallow embedding of [src/json2html.js] and the properties its
    specification states about it.

    The file is organised as follows:
    - [Host]: the fragment of ECMAScript the function runs on (values,
      [ToBoolean], [ToString], property lookup on plain objects, the array
      and [Set] operations the source calls);
    - the function [json2html] itself, written statement by statement;
    - [Heap]: the same function run against the state it can reach, the
      argument array and the global [Object.prototype], to speak about
      effects;
    - the theorems. *)

From Stdlib Require Import String Ascii List ZArith Bool Lia.
From Stdlib Require Import DecimalPos DecimalString Permutation.
Import ListNotations.
Open Scope list_scope.
Open Scope string_scope.

(* ===================================================================== *)
(** ** The host language fragment *)
(* ===================================================================== *)

Module Host.

(** *** Numbers

    The source never computes with a number: it only tests it for truthiness
    and converts it to a string.  Both operations are determined by the
    classification ECMA-262 [Number::toString] starts from, so a number is
    kept in that form: NaN, a signed zero, a signed infinity, or a finite
    nonzero value [(-1)^neg * s * 10^(n-k)], where [s] is the shortest
    decimal significand that reads back as the same double, [k] is the
    number of decimal digits of [s], and [n] places the decimal point.
    For instance [1.5] is [Finite false 15 1] and [1e21] is
    [Finite false 1 22]. *)
Inductive number : Type :=
| NaN
| Zero (neg : bool)
| Infinity (neg : bool)
| Finite (neg : bool) (s : positive) (n : Z).

(** The decimal digits of a positive integer, most significant first. *)
Definition digits (p : positive) : string :=
  NilEmpty.string_of_uint (Pos.to_uint p).

(** The decimal digits of a natural number; ["0"] for zero. *)
Definition digits_of_N (m : N) : string :=
  match m with
  | N0 => "0"
  | Npos p => digits p
  end.

(** [count] occurrences of the code unit ["0"]. *)
Fixpoint zeros (count : nat) : string :=
  match count with
  | O => ""
  | S c => String "0" (zeros c)
  end.

(** ECMA-262 [Number::toString], radix 10, steps 5 to 10, for the positive
    finite value [s * 10^(n-k)]. *)
Definition finite_to_string (s : positive) (n : Z) : string :=
  let ds := digits s in
  let k := String.length ds in
  if ((-5 <=? n) && (n <=? 21))%Z then
    if (Z.of_nat k <=? n)%Z then
      ds ++ zeros (Z.to_nat n - k)
    else if (0 <? n)%Z then
      substring 0 (Z.to_nat n) ds ++ "." ++ substring (Z.to_nat n) (k - Z.to_nat n) ds
    else
      "0." ++ zeros (Z.to_nat (- n)) ++ ds
  else
    let exponent :=
      (if (n <? 0)%Z then "-" else "+") ++ digits_of_N (Z.abs_N (n - 1)) in
    if Nat.eqb k 1 then
      ds ++ "e" ++ exponent
    else
      substring 0 1 ds ++ "." ++ substring 1 (k - 1) ds ++ "e" ++ exponent.

(** ECMA-262 [Number::toString], radix 10. *)
Definition NumberToString (x : number) : string :=
  match x with
  | NaN => "NaN"
  | Zero _ => "0"
  | Infinity neg => (if neg then "-" else "") ++ "Infinity"
  | Finite neg s n => (if neg then "-" else "") ++ finite_to_string s n
  end.

(** *** Values

    The values a flat record can hold according to the data model (string,
    number, boolean, null, undefined), and the two kinds of object a lookup
    on a plain object can reach through its prototype: a built-in function
    and [Object.prototype] itself. *)
Inductive value : Type :=
| VUndefined
| VNull
| VBoolean (b : bool)
| VNumber (x : number)
| VString (s : string)
| VNative (name : string)
| VObjectPrototype.

(** ECMA-262 [ToBoolean]: undefined, null, false, +0, -0, NaN and the empty
    string are falsy; every object is truthy. *)
Definition ToBoolean (v : value) : bool :=
  match v with
  | VUndefined => false
  | VNull => false
  | VBoolean b => b
  | VNumber NaN => false
  | VNumber (Zero _) => false
  | VNumber _ => true
  | VString s => negb (String.eqb s "")
  | VNative _ => true
  | VObjectPrototype => true
  end.

(** ECMA-262 [ToString].  The text of a built-in function is the one V8 and
    JavaScriptCore print (the standard fixes the shape
    [function name() { [native code] }] and leaves the white space open);
    [Object.prototype] converts through [Object.prototype.toString]. *)
Definition ToString (v : value) : string :=
  match v with
  | VUndefined => "undefined"
  | VNull => "null"
  | VBoolean true => "true"
  | VBoolean false => "false"
  | VNumber x => NumberToString x
  | VString s => s
  | VNative name => "function " ++ name ++ "() { [native code] }"
  | VObjectPrototype => "[object Object]"
  end.

(** The expression [a || b]: [a] when it is truthy, [b] otherwise. *)
Definition logical_or (a b : value) : value :=
  if ToBoolean a then a else b.

(** *** Plain objects

    A record is a plain object (an object literal or the result of
    [JSON.parse]): its own enumerable string-keyed properties, listed in
    the order [Object.keys] reports them, and [Object.prototype] as its
    prototype.  An object has at most one property per key; lookup takes the
    first binding, so nothing below depends on that. *)
Definition Record : Type := list (string * value).

(** [Object.keys(o)]. *)
Definition Object_keys (o : Record) : list string := map fst o.

(** The own property [key] of [o], if any. *)
Fixpoint GetOwnProperty (o : Record) (key : string) : option value :=
  match o with
  | [] => None
  | (k, v) :: rest => if String.eqb k key then Some v else GetOwnProperty rest key
  end.

(** The properties of [Object.prototype] (ECMA-262 20.1.3 and annex B.2.2):
    eleven built-in functions and the [__proto__] accessor, whose getter
    returns the prototype of the receiver, here [Object.prototype]. *)
Definition Object_prototype (key : string) : option value :=
  if String.eqb key "constructor" then Some (VNative "Object")
  else if String.eqb key "__proto__" then Some VObjectPrototype
  else if existsb (String.eqb key)
            ["hasOwnProperty"; "isPrototypeOf"; "propertyIsEnumerable";
             "toLocaleString"; "toString"; "valueOf";
             "__defineGetter__"; "__defineSetter__";
             "__lookupGetter__"; "__lookupSetter__"]
       then Some (VNative key)
  else None.

(** The expression [o[key]]: the own property, else the inherited one, else
    undefined. *)
Definition Get (o : Record) (key : string) : value :=
  match GetOwnProperty o key with
  | Some v => v
  | None =>
      match Object_prototype key with
      | Some v => v
      | None => VUndefined
      end
  end.

(** *** Arrays and sets *)

(** [a.flatMap(f)] for a callback that returns arrays. *)
Fixpoint flatMap {A B : Type} (f : A -> list B) (a : list A) : list B :=
  match a with
  | [] => []
  | x :: rest => (f x ++ flatMap f rest)%list
  end.

(** [a.join(separator)] on an array of strings. *)
Fixpoint join (separator : string) (a : list string) : string :=
  match a with
  | [] => ""
  | [x] => x
  | x :: rest => x ++ separator ++ join separator rest
  end.

(** [Set.prototype.has], on the insertion-ordered list of members. *)
Definition Set_has (members : list string) (x : string) : bool :=
  existsb (String.eqb x) members.

(** [Set.prototype.add]: a new member goes to the end, a member already
    present leaves the set as it is. *)
Definition Set_add (members : list string) (x : string) : list string :=
  if Set_has members x then members else (members ++ [x])%list.

(** [new Set(iterable)]: the elements are added one by one, in order. *)
Definition Set_new (iterable : list string) : list string :=
  fold_left Set_add iterable [].

End Host.

Import Host.

(* ===================================================================== *)
(** ** The function *)
(* ===================================================================== *)

(** The double quote, code unit 34. *)
Definition dquote : string := String "034" EmptyString.

(** [const headers = [...new Set(data.flatMap(Object.keys))]]: spreading a
    set lists its members in insertion order. *)
Definition headers (data : list Record) : list string :=
  Set_new (flatMap Object_keys data).

(** [header => `<th>${header}</th>`]; [header] is a string, on which
    [ToString] is the identity. *)
Definition header_cell (header : string) : string :=
  "<th>" ++ header ++ "</th>".

(** The substitution [${row[header] || ''}]: the template literal applies
    [ToString] to the value of the expression. *)
Definition cell_content (row : Record) (header : string) : string :=
  ToString (logical_or (Get row header) (VString "")).

(** [header => `<td>${row[header] || ''}</td>`]. *)
Definition data_cell (row : Record) (header : string) : string :=
  "<td>" ++ cell_content row header ++ "</td>".

(** [row => { return `<tr>${headers.map(...).join('')}</tr>`; }]. *)
Definition body_row (headers : list string) (row : Record) : string :=
  "<tr>" ++ join "" (map (data_cell row) headers) ++ "</tr>".

(** [json2html(data)], one [let] per statement of the source; [html += e]
    rebinds [html]. *)
Definition json2html (data : list Record) : string :=
  let headers := headers data in
  let html :=
    "<table data-user=" ++ dquote ++ "bingikarthik2014@gmail.com" ++ dquote
      ++ "><thead><tr>" in
  let html := html ++ join "" (map header_cell headers) in
  let html := html ++ "</tr></thead><tbody>" in
  let html := html ++ join "" (map (body_row headers) data) in
  let html := html ++ "</tbody></table>" in
  html.

(* ===================================================================== *)
(** ** The function against a store *)
(* ===================================================================== *)

(** The argument of [json2html] is a reference to an array that the caller
    still holds, and the lookup [row[header]] reads, beyond the record, the
    global object [Object.prototype], which any script can extend.  Here
    the function runs in a state monad whose state is these two objects.
    The array is read the way [Array.prototype.map] and
    [Array.prototype.flatMap] read it, one index at a time; the built-in
    functions the source calls are the standard ones. *)
Module Heap.

Record Store : Type := mkStore {
  array : list Record;
  prototype : Record
}.

Definition M (A : Type) : Type := Store -> A * Store.

Definition ret {A : Type} (a : A) : M A := fun st => (a, st).

Definition bind {A B : Type} (m : M A) (f : A -> M B) : M B :=
  fun st => let (a, st') := m st in f a st'.

#[local] Notation "x <- m ;; k" := (bind m (fun x => k))
  (at level 61, m at next level, right associativity).

(** [LengthOfArrayLike(data)]. *)
Definition LengthOfArrayLike : M nat :=
  fun st => (List.length (array st), st).

(** [data[k]] when [HasProperty(data, k)], [None] otherwise. *)
Definition GetIndex (k : nat) : M (option Record) :=
  fun st => (nth_error (array st) k, st).

(** [o[key]] for a plain object [o] when [Object.prototype] has the
    properties [proto]: the own property, else the inherited one, else
    undefined. *)
Definition Get_in (proto : Record) (o : Record) (key : string) : value :=
  match GetOwnProperty o key with
  | Some v => v
  | None =>
      match GetOwnProperty proto key with
      | Some v => v
      | None => VUndefined
      end
  end.

(** The expression [o[key]], which reads [Object.prototype] as it is at
    that moment. *)
Definition GetProperty (o : Record) (key : string) : M value :=
  fun st => (Get_in (prototype st) o key, st).

(** The assignment [o[key] = v] on the properties of an object, for a data
    property whose key is not an array index: an existing property keeps
    its place, a new one goes to the end. *)
Fixpoint Set_property (o : Record) (key : string) (v : value) : Record :=
  match o with
  | [] => [(key, v)]
  | (k, w) :: rest =>
      if String.eqb k key then (k, v) :: rest
      else (k, w) :: Set_property rest key v
  end.

(** The statement [Object.prototype[key] = v], which any script of the
    realm can run. *)
Definition SetPrototypeProperty (key : string) (v : value) : M unit :=
  fun st => (tt, mkStore (array st) (Set_property (prototype st) key v)).

(** The loop of [Array.prototype.map]: indices [k], [k+1], ... for
    [count] rounds, the callback applied to each element that is there.
    An index that is not there leaves a hole, which [join] turns into the
    empty string; with the empty separator that is the same as leaving
    the element out. *)
Fixpoint map_loop {B : Type} (callback : Record -> M B) (k count : nat)
  : M (list B) :=
  match count with
  | O => ret []
  | S c =>
      kValue <- GetIndex k ;;
      match kValue with
      | Some x =>
          mapped <- callback x ;;
          rest <- map_loop callback (S k) c ;;
          ret (mapped :: rest)
      | None => map_loop callback (S k) c
      end
  end.

(** [data.map(callback)]: the length is read once, before the loop. *)
Definition Array_map {B : Type} (callback : Record -> M B) : M (list B) :=
  len <- LengthOfArrayLike ;;
  map_loop callback 0 len.

(** [data.flatMap(callback)]: as [map], the results flattened by one
    level. *)
Definition Array_flatMap {B : Type} (callback : Record -> M (list B))
  : M (list B) :=
  mapped <- Array_map callback ;;
  ret (List.concat mapped).

(** [a.map(callback)] on an array [a] that the function has just created
    and nothing else refers to. *)
Fixpoint map_local {A B : Type} (callback : A -> M B) (a : list A)
  : M (list B) :=
  match a with
  | [] => ret []
  | x :: rest =>
      mapped <- callback x ;;
      others <- map_local callback rest ;;
      ret (mapped :: others)
  end.

(** [json2html(data)] with [data] and [Object.prototype] in the store. *)
Definition json2html : M string :=
  keys <- Array_flatMap (fun row => ret (Object_keys row)) ;;
  let headers := Set_new keys in
  let html :=
    "<table data-user=" ++ dquote ++ "bingikarthik2014@gmail.com" ++ dquote
      ++ "><thead><tr>" in
  let html := html ++ join "" (map header_cell headers) in
  let html := html ++ "</tr></thead><tbody>" in
  rows <- Array_map (fun row =>
            cells <- map_local (fun header =>
                       v <- GetProperty row header ;;
                       ret ("<td>" ++ ToString (logical_or v (VString ""))
                              ++ "</td>")) headers ;;
            ret ("<tr>" ++ join "" cells ++ "</tr>")) ;;
  let html := html ++ join "" rows in
  let html := html ++ "</tbody></table>" in
  ret html.

(** The properties of [Object.prototype] in a realm no script has touched:
    the table [Object_prototype], as a list of properties. *)
Definition standard : Record :=
  [("constructor", VNative "Object");
   ("__proto__", VObjectPrototype);
   ("hasOwnProperty", VNative "hasOwnProperty");
   ("isPrototypeOf", VNative "isPrototypeOf");
   ("propertyIsEnumerable", VNative "propertyIsEnumerable");
   ("toLocaleString", VNative "toLocaleString");
   ("toString", VNative "toString");
   ("valueOf", VNative "valueOf");
   ("__defineGetter__", VNative "__defineGetter__");
   ("__defineSetter__", VNative "__defineSetter__");
   ("__lookupGetter__", VNative "__lookupGetter__");
   ("__lookupSetter__", VNative "__lookupSetter__")].

End Heap.

(* ===================================================================== *)
(** ** The table the specification describes *)
(* ===================================================================== *)

(** The concatenation of a list of strings. *)
Definition concat_strings (pieces : list string) : string :=
  fold_right String.append "" pieces.

(** The opening of the table, with its fixed [data-user] attribute. *)
Definition opening : string :=
  "<table data-user=" ++ dquote ++ "bingikarthik2014@gmail.com" ++ dquote
    ++ "><thead><tr>".

(** The output format: the opening, one [<th>] per header, the fixed middle,
    one [<tr>] per row of cell contents with one [<td>] per content, the
    closing. *)
Definition table (header_row : list string) (body : list (list string))
  : string :=
  opening
  ++ concat_strings (map (fun key => "<th>" ++ key ++ "</th>") header_row)
  ++ "</tr></thead><tbody>"
  ++ concat_strings
       (map (fun cells =>
               "<tr>"
               ++ concat_strings (map (fun c => "<td>" ++ c ++ "</td>") cells)
               ++ "</tr>") body)
  ++ "</tbody></table>".

(** The cell contents of the body: one row per record, one content per
    header. *)
Definition contents (data : list Record) : list (list string) :=
  map (fun row => map (cell_content row) (headers data)) data.

(** The keys in scan order: records left to right, the keys of each record
    in that record's own order. *)
Definition scan (data : list Record) : list string :=
  List.concat (map Object_keys data).

(** First-seen order: a key is kept at its first occurrence and dropped at
    every later one.  [seen] holds the keys met so far. *)
Fixpoint first_seen (seen : list string) (keys : list string) : list string :=
  match keys with
  | [] => []
  | k :: rest =>
      if existsb (String.eqb k) seen
      then first_seen seen rest
      else k :: first_seen (k :: seen) rest
  end.

(** [x] occurs in [s] as a contiguous piece. *)
Definition occurs_in (x s : string) : Prop :=
  exists before after, s = before ++ x ++ after.

(** The cell as the specification words it: empty when the record has no
    value for the key or a falsy one, the string form of the value
    otherwise. *)
Definition spec_cell_content (row : Record) (key : string) : string :=
  match GetOwnProperty row key with
  | None => ""
  | Some v => if ToBoolean v then ToString v else ""
  end.

(** Decimal digits. *)
Definition is_digit (c : ascii) : bool :=
  ((48 <=? nat_of_ascii c) && (nat_of_ascii c <=? 57))%nat.

Fixpoint all_digits (s : string) : bool :=
  match s with
  | EmptyString => true
  | String c rest => is_digit c && all_digits rest
  end.

(** A nonempty run of decimal digits. *)
Definition digit_string (s : string) : Prop :=
  s <> "" /\ all_digits s = true.

(** A decimal numeral: an optional minus sign, integer digits, an optional
    fraction, an optional exponent. *)
Definition decimal_numeral (s : string) : Prop :=
  exists sign int frac exp,
    s = sign ++ int ++ frac ++ exp
    /\ (sign = "" \/ sign = "-")
    /\ digit_string int
    /\ (frac = "" \/ exists f, frac = "." ++ f /\ digit_string f)
    /\ (exp = "" \/
        exists e, (exp = "e+" ++ e \/ exp = "e-" ++ e) /\ digit_string e).

(** The rows of the body, before they are joined:
    [data.map(row => ...)]. *)
Definition body_rows (data : list Record) : list string :=
  map (body_row (headers data)) data.

(** The number of positions of [s] at which [pattern] starts. *)
Fixpoint occurrences (pattern s : string) : nat :=
  match s with
  | EmptyString => 0
  | String _ rest =>
      (if prefix pattern s then 1 else 0) + occurrences pattern rest
  end.

(** [s] holds no ["<"]. *)
Fixpoint no_lt (s : string) : bool :=
  match s with
  | EmptyString => true
  | String c rest => negb (Ascii.eqb c "<") && no_lt rest
  end.

(** What a value leaves in its cell: the substitution [${v || ''}]. *)
Definition rendered (v : value) : string :=
  ToString (logical_or v (VString "")).

(** The cell contents as the specification words them, row by row. *)
Definition spec_contents (data : list Record) : list (list string) :=
  map (fun row => map (spec_cell_content row) (headers data)) data.

(** Two records with the same keys in the same order whose values leave the
    same text in a cell. *)
Definition same_rendering (r r' : Record) : Prop :=
  Forall2 (fun p p' => fst p = fst p' /\ rendered (snd p) = rendered (snd p'))
          r r'.

(** The cell contents of the body when [Object.prototype] has the
    properties [proto]. *)
Definition contents_in (proto : Record) (data : list Record)
  : list (list string) :=
  map (fun row =>
         map (fun header => rendered (Heap.Get_in proto row header))
             (headers data)) data.

(* ===================================================================== *)
(** ** Strings and lists *)
(* ===================================================================== *)

Section Strings.

Lemma append_nil_r (s : string) : s ++ "" = s.
Proof. induction s as [|c s IH]; simpl; [reflexivity | now rewrite IH]. Qed.

Lemma append_assoc (a b c : string) : (a ++ b) ++ c = a ++ (b ++ c).
Proof. induction a as [|x a IH]; simpl; [reflexivity | now rewrite IH]. Qed.

Lemma length_append (a b : string) :
  String.length (a ++ b) = String.length a + String.length b.
Proof. induction a as [|x a IH]; simpl; [reflexivity | now rewrite IH]. Qed.

Lemma append_inv_head (a b c : string) : a ++ b = a ++ c -> b = c.
Proof.
  induction a as [|x a IH]; simpl; intros H; [exact H |].
  injection H as H. now apply IH.
Qed.

(** Joining with the empty separator is concatenation. *)
Lemma join_empty (pieces : list string) :
  join "" pieces = concat_strings pieces.
Proof.
  induction pieces as [|x [|y rest] IH].
  - reflexivity.
  - simpl. now rewrite append_nil_r.
  - change (join "" (x :: y :: rest)) with (x ++ "" ++ join "" (y :: rest)).
    rewrite IH. reflexivity.
Qed.

Lemma concat_strings_app (l1 l2 : list string) :
  concat_strings (l1 ++ l2)%list = concat_strings l1 ++ concat_strings l2.
Proof.
  induction l1 as [|x l1 IH]; simpl; [reflexivity |].
  now rewrite IH, append_assoc.
Qed.

Lemma append_inv_tail (a b c : string) : a ++ c = b ++ c -> a = b.
Proof.
  revert b.
  induction a as [|x a IH]; intros [|y b] H; simpl in H.
  - reflexivity.
  - apply (f_equal String.length) in H. simpl in H.
    rewrite length_append in H. lia.
  - apply (f_equal String.length) in H. simpl in H.
    rewrite length_append in H. lia.
  - injection H as -> H. f_equal. now apply IH.
Qed.

Lemma occurs_in_refl (x : string) : occurs_in x x.
Proof. exists "", "". simpl. now rewrite append_nil_r. Qed.

Lemma occurs_in_append_l (x a b : string) :
  occurs_in x a -> occurs_in x (a ++ b).
Proof.
  intros (p & q & ->). exists p, (q ++ b).
  now rewrite !append_assoc.
Qed.

Lemma occurs_in_append_r (x a b : string) :
  occurs_in x b -> occurs_in x (a ++ b).
Proof.
  intros (p & q & ->). exists (a ++ p), q.
  now rewrite !append_assoc.
Qed.

Lemma occurs_in_trans (x y z : string) :
  occurs_in x y -> occurs_in y z -> occurs_in x z.
Proof.
  intros (p & q & ->) (p' & q' & ->).
  exists (p' ++ p), (q ++ q'). now rewrite !append_assoc.
Qed.

Lemma occurs_in_concat (x : string) (pieces : list string) :
  In x pieces -> occurs_in x (concat_strings pieces).
Proof.
  induction pieces as [|y pieces IH]; simpl; [tauto |].
  intros [-> | H].
  - apply occurs_in_append_l, occurs_in_refl.
  - apply occurs_in_append_r, IH, H.
Qed.

End Strings.

(* ===================================================================== *)
(** ** The layout of the output *)
(* ===================================================================== *)

Lemma flatMap_concat {A B : Type} (f : A -> list B) (a : list A) :
  flatMap f a = List.concat (map f a).
Proof. induction a as [|x a IH]; simpl; [reflexivity | now rewrite IH]. Qed.

(** The output is the table format applied to the headers and the cell
    contents. *)
Lemma json2html_table (data : list Record) :
  json2html data = table (headers data) (contents data).
Proof.
  unfold json2html, table, contents, opening.
  rewrite !join_empty, !map_map, !append_assoc.
  rewrite (map_ext (body_row (headers data))
             (fun row =>
                "<tr>"
                ++ concat_strings
                     (map (fun c => "<td>" ++ c ++ "</td>")
                          (map (cell_content row) (headers data)))
                ++ "</tr>")).
  - reflexivity.
  - intros row. unfold body_row. now rewrite join_empty, map_map.
Qed.

Lemma contents_length (data : list Record) :
  List.length (contents data) = List.length data.
Proof. unfold contents. apply length_map. Qed.

Lemma contents_nth (data : list Record) (i : nat) (row : Record) :
  nth_error data i = Some row ->
  nth_error (contents data) i = Some (map (cell_content row) (headers data)).
Proof. intros H. unfold contents. now rewrite nth_error_map, H. Qed.

(** C1.  For every input the output is the table format: the fixed opening,
    whose [data-user] value is a constant of the program, one [<th>] per
    header in header order, the fixed middle, one [<tr>] per record in input
    order holding one [<td>] per header, and the closing.  The body has
    exactly one row per record, and the row of a record, the empty record
    included, holds the cell of every header. *)
Theorem json2html_layout (data : list Record) :
  json2html data = table (headers data) (contents data)
  /\ opening
     = "<table data-user=" ++ String "034" "bingikarthik2014@gmail.com"
         ++ String "034" "><thead><tr>"
  /\ List.length (contents data) = List.length data
  /\ (forall i row, nth_error data i = Some row ->
        nth_error (contents data) i
        = Some (map (cell_content row) (headers data)))
  /\ json2html [[]]
     = opening ++ "</tr></thead><tbody>" ++ "<tr></tr>" ++ "</tbody></table>".
Proof.
  split; [apply json2html_table |].
  split; [reflexivity |].
  split; [apply contents_length |].
  split; [apply contents_nth | reflexivity].
Qed.

(** A witness of C1: the second of three records is the empty record. *)
Lemma json2html_layout_witness :
  let data := [[("a", VString "x")]; []; [("b", VBoolean true)]] in
  nth_error (contents data) 1 = Some [""; ""]
  /\ List.length (contents data) = 3.
Proof.
  intros data.
  destruct (json2html_layout data) as (_ & _ & L & N & _).
  split; [apply (N 1 []); reflexivity | exact L].
Defined.

(* ===================================================================== *)
(** ** The header sequence *)
(* ===================================================================== *)

Section Headers.

Lemma existsb_eqb_In (k : string) (l : list string) :
  existsb (String.eqb k) l = true <-> In k l.
Proof.
  rewrite existsb_exists. split.
  - intros (y & Hy & E). apply String.eqb_eq in E. now subst.
  - intros H. exists k. split; [exact H | apply String.eqb_refl].
Qed.

Lemma Set_has_In (members : list string) (x : string) :
  Set_has members x = true <-> In x members.
Proof. apply existsb_eqb_In. Qed.

(** Two lists with the same members agree as sets of seen keys. *)
Lemma existsb_eqb_ext (k : string) (l1 l2 : list string) :
  (forall y, In y l1 <-> In y l2) ->
  existsb (String.eqb k) l1 = existsb (String.eqb k) l2.
Proof.
  intros H. apply eq_true_iff_eq. rewrite !existsb_eqb_In. apply H.
Qed.

Lemma first_seen_ext (keys seen1 seen2 : list string) :
  (forall y, In y seen1 <-> In y seen2) ->
  first_seen seen1 keys = first_seen seen2 keys.
Proof.
  revert seen1 seen2.
  induction keys as [|k keys IH]; intros seen1 seen2 H; simpl; [reflexivity |].
  rewrite (existsb_eqb_ext k seen1 seen2 H).
  destruct (existsb (String.eqb k) seen2).
  - now apply IH.
  - f_equal. apply IH. intros y. simpl. rewrite H. tauto.
Qed.

(** The set built by the source is the first-seen sequence: the fold that
    adds the keys one by one appends exactly the keys not met before. *)
Lemma fold_Set_add_first_seen (keys members : list string) :
  fold_left Set_add keys members = (members ++ first_seen members keys)%list.
Proof.
  revert members.
  induction keys as [|k keys IH]; intros members; simpl.
  - now rewrite app_nil_r.
  - unfold Set_add at 2. unfold Set_has.
    destruct (existsb (String.eqb k) members) eqn:E.
    + apply IH.
    + rewrite IH, <- app_assoc. simpl. do 2 f_equal.
      apply first_seen_ext. intros y.
      rewrite in_app_iff. simpl. tauto.
Qed.

Lemma headers_first_seen (data : list Record) :
  headers data = first_seen [] (scan data).
Proof.
  unfold headers, Set_new, scan.
  now rewrite fold_Set_add_first_seen, flatMap_concat.
Qed.

Lemma first_seen_In (keys seen : list string) (k : string) :
  In k (first_seen seen keys) <-> In k keys /\ ~ In k seen.
Proof.
  revert seen.
  induction keys as [|x keys IH]; intros seen; simpl; [tauto |].
  destruct (existsb (String.eqb x) seen) eqn:E.
  - apply existsb_eqb_In in E. rewrite IH.
    split; [tauto |]. intros [[-> | H] N]; tauto.
  - assert (N : ~ In x seen).
    { intros H. apply existsb_eqb_In in H. congruence. }
    simpl. rewrite IH. simpl.
    destruct (String.string_dec x k) as [-> | D]; tauto.
Qed.

Lemma first_seen_NoDup (keys seen : list string) :
  NoDup (first_seen seen keys).
Proof.
  revert seen.
  induction keys as [|x keys IH]; intros seen; simpl; [constructor |].
  destruct (existsb (String.eqb x) seen); [apply IH |].
  constructor; [| apply IH].
  rewrite first_seen_In. simpl. tauto.
Qed.

(** Scanning a concatenation: the second part is scanned with the keys of
    the first part already seen. *)
Lemma first_seen_app (keys1 keys2 seen : list string) :
  first_seen seen (keys1 ++ keys2)%list
  = (first_seen seen keys1 ++ first_seen (keys1 ++ seen) keys2)%list.
Proof.
  revert seen.
  induction keys1 as [|k keys1 IH]; intros seen; simpl; [reflexivity |].
  destruct (existsb (String.eqb k) seen) eqn:E.
  - rewrite IH. f_equal. apply first_seen_ext. intros y.
    apply existsb_eqb_In in E. simpl. rewrite !in_app_iff.
    split; [tauto |]. intros [<- | H]; tauto.
  - simpl. rewrite IH. do 2 f_equal. apply first_seen_ext. intros y.
    simpl. rewrite !in_app_iff. simpl. tauto.
Qed.

Lemma in_scan (data : list Record) (k : string) :
  In k (scan data) <-> exists row, In row data /\ In k (Object_keys row).
Proof.
  unfold scan. rewrite in_concat. split.
  - intros (keys & H & Hk). apply in_map_iff in H.
    destruct H as (row & <- & H). now exists row.
  - intros (row & H & Hk). exists (Object_keys row).
    split; [now apply in_map | exact Hk].
Qed.

Lemma headers_In (data : list Record) (k : string) :
  In k (headers data) <-> exists row, In row data /\ In k (Object_keys row).
Proof.
  rewrite headers_first_seen, first_seen_In, <- in_scan. simpl. tauto.
Qed.

Lemma headers_NoDup (data : list Record) : NoDup (headers data).
Proof. rewrite headers_first_seen. apply first_seen_NoDup. Qed.

End Headers.

(** C2.  The header sequence is the first-seen sequence of the keys in scan
    order (records left to right, each record's keys in its own order): its
    members are the keys of the records, and a key whose first occurrence in
    the scan comes after the keys [before] stands right after the headers
    those keys give, however often it occurs later.  The records
    [{b:1,a:2}] and [{c:3}] give [b], [a], [c]. *)
Theorem headers_first_seen_order (data : list Record) :
  headers data = first_seen [] (scan data)
  /\ (forall k, In k (headers data) <->
                exists row, In row data /\ In k (Object_keys row))
  /\ (forall before k after,
        scan data = (before ++ k :: after)%list -> ~ In k before ->
        headers data
        = (first_seen [] before ++ k :: first_seen (k :: before) after)%list
        /\ ~ In k (first_seen [] before)
        /\ ~ In k (first_seen (k :: before) after))
  /\ headers [[("b", VNumber (Finite false 1 1));
               ("a", VNumber (Finite false 2 1))];
              [("c", VNumber (Finite false 3 1))]]
     = ["b"; "a"; "c"].
Proof.
  split; [apply headers_first_seen |].
  split; [apply headers_In |].
  split; [| reflexivity].
  intros before k after E N.
  rewrite headers_first_seen, E, first_seen_app, app_nil_r. simpl.
  destruct (existsb (String.eqb k) before) eqn:X.
  { apply existsb_eqb_In in X. contradiction. }
  split; [reflexivity |].
  rewrite !first_seen_In. simpl. tauto.
Qed.

(** A witness of C2: in the scan [b], [a], [b], [c] the key [c] first occurs
    after [b], [a], [b]. *)
Lemma headers_first_seen_order_witness :
  let data := [[("b", VNull); ("a", VNull)]; [("b", VNull); ("c", VNull)]] in
  headers data = ["b"; "a"; "c"]
  /\ (exists row, In row data /\ In "c" (Object_keys row)).
Proof.
  intros data.
  destruct (headers_first_seen_order data) as (_ & M & P & _).
  split.
  - apply (P ["b"; "a"; "b"] "c" []); [reflexivity |].
    simpl. intros [H | [H | [H | H]]]; try discriminate; exact H.
  - apply (M "c"). simpl. tauto.
Defined.



(* ===================================================================== *)
(** ** Values in cells *)
(* ===================================================================== *)

Section Digits.

Lemma all_digits_app (a b : string) :
  all_digits (a ++ b) = all_digits a && all_digits b.
Proof.
  induction a as [|c a IH]; simpl; [reflexivity |].
  now rewrite IH, andb_assoc.
Qed.

Lemma all_digits_zeros (count : nat) : all_digits (zeros count) = true.
Proof. induction count as [|c IH]; simpl; [reflexivity | exact IH]. Qed.

Lemma all_digits_substring (s : string) (a b : nat) :
  all_digits s = true -> all_digits (substring a b s) = true.
Proof.
  revert a b.
  induction s as [|c s IH]; intros a b H.
  - destruct a, b; reflexivity.
  - simpl in H. apply andb_true_iff in H. destruct H as [Hc Hs].
    destruct a as [|a]; simpl.
    + destruct b as [|b]; simpl; [reflexivity |].
      rewrite Hc. simpl. now apply IH.
    + now apply IH.
Qed.

Lemma length_substring (s : string) (a b : nat) :
  a + b <= String.length s -> String.length (substring a b s) = b.
Proof.
  revert a b.
  induction s as [|c s IH]; intros a b H; simpl in H.
  - assert (a = 0) by lia. assert (b = 0) by lia. now subst.
  - destruct a as [|a]; simpl.
    + destruct b as [|b]; simpl; [reflexivity |].
      f_equal. apply IH. simpl. lia.
    + apply IH. lia.
Qed.

Lemma length_zero_iff (s : string) : String.length s = 0 <-> s = "".
Proof. destruct s; simpl; split; congruence. Qed.

Lemma all_digits_string_of_uint (d : Decimal.uint) :
  all_digits (NilEmpty.string_of_uint d) = true.
Proof. induction d; simpl; [reflexivity | exact IHd ..]. Qed.

Lemma digits_digit_string (p : positive) : digit_string (digits p).
Proof.
  split; [| apply all_digits_string_of_uint].
  unfold digits. pose proof (Unsigned.to_uint_nonnil p) as N.
  destruct (Pos.to_uint p); simpl; congruence.
Qed.

Lemma digits_of_N_digit_string (m : N) : digit_string (digits_of_N m).
Proof.
  destruct m as [|p]; simpl; [| apply digits_digit_string].
  split; [discriminate | reflexivity].
Qed.

Lemma digit_string_length (s : string) :
  all_digits s = true -> 0 < String.length s -> digit_string s.
Proof.
  intros H L. split; [| exact H].
  intros ->. simpl in L. lia.
Qed.

Lemma digit_string_app_l (a b : string) :
  digit_string a -> all_digits b = true -> digit_string (a ++ b).
Proof.
  intros [N H] Hb. split.
  - destruct a; [congruence | discriminate].
  - now rewrite all_digits_app, H, Hb.
Qed.

Lemma digit_string_app_r (a b : string) :
  all_digits a = true -> digit_string b -> digit_string (a ++ b).
Proof.
  intros Ha [N H]. split.
  - destruct a; simpl; [exact N | discriminate].
  - now rewrite all_digits_app, Ha, H.
Qed.

End Digits.

Section Numbers.

(** What [Number::toString] writes for a positive finite number is a
    decimal numeral without sign. *)
Lemma finite_to_string_numeral (s : positive) (n : Z) :
  exists int frac exp,
    finite_to_string s n = int ++ frac ++ exp
    /\ digit_string int
    /\ (frac = "" \/ exists f, frac = "." ++ f /\ digit_string f)
    /\ (exp = "" \/
        exists e, (exp = "e+" ++ e \/ exp = "e-" ++ e) /\ digit_string e).
Proof.
  unfold finite_to_string.
  pose proof (digits_digit_string s) as D.
  assert (K : 0 < String.length (digits s)).
  { destruct D as [N _]. destruct (digits s); [congruence | simpl; lia]. }
  destruct D as [_ A].
  destruct ((-5 <=? n)%Z && (n <=? 21)%Z) eqn:R.
  - destruct (Z.of_nat (String.length (digits s)) <=? n)%Z eqn:I.
    + exists (digits s ++ zeros (Z.to_nat n - String.length (digits s))), "", "".
      rewrite !append_nil_r. split; [reflexivity |].
      split; [| tauto].
      apply digit_string_app_l; [| apply all_digits_zeros].
      now apply digit_string_length.
    + apply Z.leb_gt in I.
      destruct (0 <? n)%Z eqn:P.
      * apply Z.ltb_lt in P.
        exists (substring 0 (Z.to_nat n) (digits s)),
          ("." ++ substring (Z.to_nat n)
                    (String.length (digits s) - Z.to_nat n) (digits s)), "".
        rewrite !append_nil_r. split; [reflexivity |].
        split; [| split; [right | tauto]].
        -- apply digit_string_length; [now apply all_digits_substring |].
           rewrite length_substring; lia.
        -- eexists; split; [reflexivity |].
           apply digit_string_length; [now apply all_digits_substring |].
           rewrite length_substring; lia.
      * exists "0", ("." ++ zeros (Z.to_nat (- n)) ++ digits s), "".
        rewrite !append_nil_r. split; [reflexivity |].
        split; [split; [discriminate | reflexivity] |].
        split; [right | tauto].
        eexists; split; [reflexivity |].
        apply digit_string_app_r; [apply all_digits_zeros |].
        now apply digit_string_length.
  - assert (X : exists d,
               ((if (n <? 0)%Z then "-" else "+")
                ++ digits_of_N (Z.abs_N (n - 1)) = "+" ++ d
                \/ (if (n <? 0)%Z then "-" else "+")
                   ++ digits_of_N (Z.abs_N (n - 1)) = "-" ++ d)
               /\ digit_string d).
    { exists (digits_of_N (Z.abs_N (n - 1))).
      split; [| apply digits_of_N_digit_string].
      destruct (n <? 0)%Z; tauto. }
    destruct X as (d & Ed & Dd).
    destruct (Nat.eqb (String.length (digits s)) 1) eqn:K1.
    + exists (digits s), "",
        ("e" ++ (if (n <? 0)%Z then "-" else "+")
             ++ digits_of_N (Z.abs_N (n - 1))).
      split; [reflexivity |].
      split; [now apply digit_string_length |].
      split; [tauto | right].
      exists d. split; [| exact Dd].
      destruct Ed as [-> | ->]; simpl; tauto.
    + apply Nat.eqb_neq in K1.
      exists (substring 0 1 (digits s)),
        ("." ++ substring 1 (String.length (digits s) - 1) (digits s)),
        ("e" ++ (if (n <? 0)%Z then "-" else "+")
             ++ digits_of_N (Z.abs_N (n - 1))).
      split; [now rewrite !append_assoc |].
      split; [| split; [right | right]].
      * apply digit_string_length; [now apply all_digits_substring |].
        rewrite length_substring; lia.
      * eexists; split; [reflexivity |].
        apply digit_string_length; [now apply all_digits_substring |].
        rewrite length_substring; lia.
      * exists d. split; [| exact Dd].
        destruct Ed as [-> | ->]; simpl; tauto.
Qed.

Lemma NumberToString_finite_numeral (neg : bool) (s : positive) (n : Z) :
  decimal_numeral (NumberToString (Finite neg s n)).
Proof.
  destruct (finite_to_string_numeral s n) as (int & frac & exp & E & H).
  exists (if neg then "-" else ""), int, frac, exp.
  split; [simpl; now rewrite E |].
  split; [destruct neg; tauto | exact H].
Qed.

Lemma finite_to_string_nonempty (s : positive) (n : Z) :
  finite_to_string s n <> "".
Proof.
  destruct (finite_to_string_numeral s n) as (int & frac & exp & -> & [N _] & _).
  destruct int; [congruence | discriminate].
Qed.

Lemma not_numeral_Infinity : ~ decimal_numeral "Infinity".
Proof.
  intros (sign & int & frac & exp & E & S & [N D] & _).
  destruct int as [|c int]; [congruence |].
  simpl in D. apply andb_true_iff in D. destruct D as [D _].
  destruct S as [-> | ->]; simpl in E; [| discriminate].
  injection E as <- _. discriminate.
Qed.

(** A truthy value never converts to the empty string. *)
Lemma ToString_truthy_nonempty (v : value) :
  ToBoolean v = true -> ToString v <> "".
Proof.
  destruct v as [| |b|x|s|name|]; simpl; try discriminate.
  - destruct b; discriminate.
  - destruct x as [|neg|neg|neg s n]; try discriminate;
      intros _; simpl.
    + destruct neg; discriminate.
    + destruct neg; simpl; [discriminate | apply finite_to_string_nonempty].
  - intros H E. subst. discriminate.
Qed.

End Numbers.

Section Cells.

Lemma GetOwnProperty_In (row : Record) (key : string) (v : value) :
  GetOwnProperty row key = Some v -> In key (Object_keys row).
Proof.
  induction row as [|[k w] row IH]; simpl; [discriminate |].
  destruct (String.eqb_spec k key) as [-> | N]; [tauto |].
  intros H. right. now apply IH.
Qed.

Lemma GetOwnProperty_None (row : Record) (key : string) :
  GetOwnProperty row key = None <-> ~ In key (Object_keys row).
Proof.
  induction row as [|[k w] row IH]; simpl; [tauto |].
  destruct (String.eqb_spec k key) as [-> | N].
  - split; [discriminate | tauto].
  - rewrite IH. tauto.
Qed.

Lemma Get_own (row : Record) (key : string) (v : value) :
  GetOwnProperty row key = Some v -> Get row key = v.
Proof. intros H. unfold Get. now rewrite H. Qed.

Lemma Get_absent (row : Record) (key : string) :
  GetOwnProperty row key = None -> Object_prototype key = None ->
  Get row key = VUndefined.
Proof. intros H P. unfold Get. now rewrite H, P. Qed.

Lemma Get_inherited (row : Record) (key : string) (v : value) :
  GetOwnProperty row key = None -> Object_prototype key = Some v ->
  Get row key = v.
Proof. intros H P. unfold Get. now rewrite H, P. Qed.

(** Every property of [Object.prototype] is an object, hence truthy. *)
Lemma Object_prototype_truthy (key : string) (v : value) :
  Object_prototype key = Some v -> ToBoolean v = true.
Proof.
  unfold Object_prototype.
  destruct (String.eqb key "constructor"); [now intros [= <-] |].
  destruct (String.eqb key "__proto__"); [now intros [= <-] |].
  destruct (existsb _ _); [now intros [= <-] | discriminate].
Qed.

Lemma cell_content_Get (row : Record) (key : string) :
  cell_content row key
  = if ToBoolean (Get row key) then ToString (Get row key) else "".
Proof.
  unfold cell_content, logical_or.
  destruct (ToBoolean (Get row key)); reflexivity.
Qed.

Lemma cell_content_empty_iff (row : Record) (key : string) :
  cell_content row key = "" <-> ToBoolean (Get row key) = false.
Proof.
  rewrite cell_content_Get.
  destruct (ToBoolean (Get row key)) eqn:T.
  - split; [| discriminate].
    intros E. now apply ToString_truthy_nonempty in T.
  - tauto.
Qed.

(** On a key that [Object.prototype] does not define, the cell is the one
    the specification words. *)
Lemma cell_content_spec (row : Record) (key : string) :
  Object_prototype key = None ->
  cell_content row key = spec_cell_content row key.
Proof.
  intros P. rewrite cell_content_Get. unfold spec_cell_content.
  destruct (GetOwnProperty row key) as [v|] eqn:O.
  - now rewrite (Get_own _ _ _ O).
  - now rewrite (Get_absent _ _ O P).
Qed.

(** On a key the record has, too. *)
Lemma cell_content_spec_own (row : Record) (key : string) :
  In key (Object_keys row) ->
  cell_content row key = spec_cell_content row key.
Proof.
  intros H. rewrite cell_content_Get. unfold spec_cell_content.
  destruct (GetOwnProperty row key) as [v|] eqn:O.
  - now rewrite (Get_own _ _ _ O).
  - apply GetOwnProperty_None in O. contradiction.
Qed.

(** The specification's cell is empty exactly when the value is absent or
    falsy. *)
Lemma spec_cell_content_empty_iff (row : Record) (key : string) :
  spec_cell_content row key = "" <->
  GetOwnProperty row key = None
  \/ exists v, GetOwnProperty row key = Some v /\ ToBoolean v = false.
Proof.
  unfold spec_cell_content.
  destruct (GetOwnProperty row key) as [v|]; [| tauto].
  destruct (ToBoolean v) eqn:T.
  - split.
    + intros E. now apply ToString_truthy_nonempty in T.
    + intros [H | (w & [= <-] & H)]; congruence.
  - split; [| reflexivity]. intros _. right. now exists v.
Qed.

(** On an absent key that [Object.prototype] defines, the cell holds the
    inherited object, where the specification's cell is empty. *)
Lemma cell_content_inherited (row : Record) (key : string) (v : value) :
  GetOwnProperty row key = None -> Object_prototype key = Some v ->
  cell_content row key = ToString v
  /\ cell_content row key <> ""
  /\ spec_cell_content row key = "".
Proof.
  intros O P.
  pose proof (Object_prototype_truthy _ _ P) as T.
  rewrite cell_content_Get, (Get_inherited _ _ _ O P), T.
  split; [reflexivity |].
  split; [now apply ToString_truthy_nonempty |].
  unfold spec_cell_content. now rewrite O.
Qed.

End Cells.

(** The rows the specification lists: a missing key gives an empty cell, and
    so do the values [0] and [false]. *)
Example missing_key_rows :
  body_rows [[("a", VNumber (Finite false 1 1))];
             [("b", VNumber (Finite false 2 1))]]
  = ["<tr><td>1</td><td></td></tr>"; "<tr><td></td><td>2</td></tr>"].
Proof. reflexivity. Qed.

Example falsy_cells :
  body_rows [[("a", VNumber (Zero false))]] = ["<tr><td></td></tr>"]
  /\ body_rows [[("a", VBoolean false)]] = ["<tr><td></td></tr>"]
  /\ body_rows [[("a", VNull)]; [("a", VUndefined)]; [("a", VString "")]]
     = ["<tr><td></td></tr>"; "<tr><td></td></tr>"; "<tr><td></td></tr>"].
Proof. repeat split. Qed.

(** C3.  The cell of a record and a header is empty exactly when the record
    has no value for the key or a falsy one.  The source looks the key up
    with [row[header]], which also finds what the record inherits: on the
    records [{toString: "x"}] and [{}], the second record has no value for
    [toString], the specification's cell is empty, and the source fills the
    cell with the text of the inherited function. *)
Theorem absent_key_inherited_cell :
  let data := [[("toString", VString "x")]; []] in
  headers data = ["toString"]
  /\ GetOwnProperty [] "toString" = None
  /\ spec_cell_content [] "toString" = ""
  /\ cell_content [] "toString" = "function toString() { [native code] }"
  /\ json2html data
     = opening ++ "<th>toString</th>" ++ "</tr></thead><tbody>"
       ++ "<tr><td>x</td></tr>"
       ++ "<tr><td>function toString() { [native code] }</td></tr>"
       ++ "</tbody></table>".
Proof. repeat split. Qed.

(** C9.  As stated the claim fails: positive infinity is a nonzero, truthy
    number, and its cell holds [Infinity], which is no decimal numeral. *)
Lemma infinity_cell_not_decimal :
  ToBoolean (VNumber (Infinity false)) = true
  /\ json2html [[("a", VNumber (Infinity false))]]
     = opening ++ "<th>a</th>" ++ "</tr></thead><tbody>"
       ++ "<tr><td>Infinity</td></tr>" ++ "</tbody></table>"
  /\ ~ (forall x : number,
          (forall neg, x <> Zero neg) ->
          exists d, decimal_numeral d
                    /\ data_cell [("a", VNumber x)] "a" = "<td>" ++ d ++ "</td>").
Proof.
  split; [reflexivity |].
  split; [reflexivity |].
  intros H.
  destruct (H (Infinity false)) as (d & D & E); [discriminate |].
  change (data_cell [("a", VNumber (Infinity false))] "a")
    with ("<td>" ++ "Infinity" ++ "</td>") in E.
  apply append_inv_head, append_inv_tail in E. subst d.
  now apply not_numeral_Infinity.
Qed.

(** C9.  Amended: a truthy value is rendered by [ToString] inside its cell:
    [true] gives [<td>true</td>], the string ["0"] gives [<td>0</td>] where
    the number [0] gives an empty cell, and a finite nonzero number gives the
    decimal numeral [Number::toString] writes, which for an integer below
    [10^21] is the run of its digits.  The infinities give [Infinity] and
    [-Infinity]; NaN is falsy and gives an empty cell. *)
Theorem truthy_cell_rendering :
  (forall row key,
      ToBoolean (Get row key) = true ->
      data_cell row key = "<td>" ++ ToString (Get row key) ++ "</td>")
  /\ data_cell [("a", VBoolean true)] "a" = "<td>true</td>"
  /\ data_cell [("a", VString "0")] "a" = "<td>0</td>"
  /\ data_cell [("a", VNumber (Zero false))] "a" = "<td></td>"
  /\ (forall row key neg s n,
        Get row key = VNumber (Finite neg s n) ->
        cell_content row key = NumberToString (Finite neg s n)
        /\ decimal_numeral (cell_content row key))
  /\ (forall neg s n,
        (Z.of_nat (String.length (digits s)) <= n <= 21)%Z ->
        NumberToString (Finite neg s n)
        = (if neg then "-" else "") ++ digits s
          ++ zeros (Z.to_nat n - String.length (digits s)))
  /\ (forall row key neg,
        Get row key = VNumber (Infinity neg) ->
        cell_content row key = if neg then "-Infinity" else "Infinity")
  /\ (forall row key, Get row key = VNumber NaN -> cell_content row key = "").
Proof.
  split.
  { intros row key T. unfold data_cell. now rewrite cell_content_Get, T. }
  split; [reflexivity |].
  split; [reflexivity |].
  split; [reflexivity |].
  split.
  { intros row key neg s n G.
    assert (E : cell_content row key = NumberToString (Finite neg s n))
      by (rewrite cell_content_Get, G; reflexivity).
    split; [exact E |]. rewrite E. apply NumberToString_finite_numeral. }
  split.
  { intros neg s n [L U]. simpl. unfold finite_to_string.
    assert (R : ((-5 <=? n)%Z && (n <=? 21)%Z) = true).
    { apply andb_true_iff. split; apply Z.leb_le; lia. }
    rewrite R.
    apply Z.leb_le in L. now rewrite L. }
  split.
  { intros row key neg G. rewrite cell_content_Get, G. now destruct neg. }
  intros row key G. now rewrite cell_content_Get, G.
Qed.

(** A witness of C9 as amended: the number [-1.5] under key [a], and the
    integer [1200]. *)
Lemma truthy_cell_rendering_witness :
  data_cell [("a", VNumber (Finite true 15 1))] "a" = "<td>-1.5</td>"
  /\ decimal_numeral (cell_content [("a", VNumber (Finite true 15 1))] "a")
  /\ NumberToString (Finite false 12 4) = "1200"
  /\ cell_content [("a", VNumber (Infinity true))] "a" = "-Infinity"
  /\ cell_content [("a", VNumber NaN)] "a" = "".
Proof.
  destruct truthy_cell_rendering as (T & _ & _ & _ & F & I & X & N).
  split; [apply (T [("a", VNumber (Finite true 15 1))] "a"); reflexivity |].
  split; [apply (F [("a", VNumber (Finite true 15 1))] "a" true 15%positive 1%Z);
          reflexivity |].
  split; [apply (I false 12%positive 4%Z); simpl; lia |].
  split; [apply (X [("a", VNumber (Infinity true))] "a" true); reflexivity |].
  apply (N [("a", VNumber NaN)] "a"); reflexivity.
Defined.

(* ===================================================================== *)
(** ** Rows and cells *)
(* ===================================================================== *)

Section Rows.

Lemma json2html_body_rows (data : list Record) :
  json2html data
  = opening ++ concat_strings (map header_cell (headers data))
    ++ "</tr></thead><tbody>" ++ concat_strings (body_rows data)
    ++ "</tbody></table>".
Proof.
  unfold json2html, body_rows, opening.
  now rewrite !join_empty, !append_assoc.
Qed.

Lemma body_row_cells (hs : list string) (row : Record) :
  body_row hs row
  = "<tr>" ++ concat_strings (map (data_cell row) hs) ++ "</tr>".
Proof. unfold body_row. now rewrite join_empty. Qed.

Lemma prefix_head_ne (a c : ascii) (p s : string) :
  a <> c -> prefix (String a p) (String c s) = false.
Proof.
  intros N. cbn [prefix].
  destruct (ascii_dec a c); [contradiction | reflexivity].
Qed.

Lemma prefix_head_eq (a : ascii) (p s : string) :
  prefix (String a p) (String a s) = prefix p s.
Proof.
  cbn [prefix]. destruct (ascii_dec a a); [reflexivity | contradiction].
Qed.

Lemma prefix_nil (s : string) : prefix "" s = true.
Proof. destruct s; reflexivity. Qed.

(** Text that holds no ["<"] starts no [<td>]. *)
Lemma occurrences_skip (a b : string) :
  no_lt a = true ->
  occurrences "<td>" (a ++ b) = occurrences "<td>" b.
Proof.
  induction a as [|c a IH]; [reflexivity |].
  cbn [no_lt append occurrences].
  intros H. apply andb_true_iff in H. destruct H as [Hc Ha].
  apply negb_true_iff, Ascii.eqb_neq in Hc.
  rewrite prefix_head_ne by congruence.
  now apply IH.
Qed.

Lemma occurrences_data_cell (row : Record) (key rest : string) :
  no_lt (cell_content row key) = true ->
  occurrences "<td>" (data_cell row key ++ rest)
  = S (occurrences "<td>" rest).
Proof.
  intros H. unfold data_cell. rewrite !append_assoc.
  cbn [append occurrences].
  rewrite !prefix_head_eq, prefix_nil.
  rewrite !prefix_head_ne by discriminate.
  cbn [Nat.add]. f_equal.
  rewrite occurrences_skip by exact H.
  cbn [append occurrences].
  rewrite prefix_head_eq.
  now rewrite !prefix_head_ne by discriminate.
Qed.

Lemma occurrences_cells (row : Record) (hs : list string) (rest : string) :
  Forall (fun key => no_lt (cell_content row key) = true) hs ->
  occurrences "<td>" (concat_strings (map (data_cell row) hs) ++ rest)
  = List.length hs + occurrences "<td>" rest.
Proof.
  induction 1 as [|key hs H _ IH]; [reflexivity |].
  cbn [map concat_strings fold_right List.length].
  rewrite append_assoc, occurrences_data_cell by exact H.
  fold (concat_strings (map (data_cell row) hs)).
  rewrite IH. reflexivity.
Qed.

Lemma occurrences_body_row (row : Record) (hs : list string) :
  Forall (fun key => no_lt (cell_content row key) = true) hs ->
  occurrences "<td>" (body_row hs row) = List.length hs.
Proof.
  intros H. rewrite body_row_cells. cbn [append occurrences].
  rewrite !prefix_head_eq.
  rewrite !prefix_head_ne by discriminate.
  cbn [Nat.add].
  rewrite occurrences_cells by exact H.
  cbn [append occurrences].
  rewrite !prefix_head_eq.
  rewrite !prefix_head_ne by discriminate.
  cbn [Nat.add]. lia.
Qed.

End Rows.

(** C4.  Every body row of the output is [<tr>], then exactly as many
    [<td>] cells as there are headers, the cell of each header in header
    order, then [</tr>]; and when no cell content holds a ["<"], the text
    [<td>] occurs in the row exactly that many times. *)
Theorem row_cell_count (data : list Record) :
  json2html data
  = opening ++ concat_strings (map header_cell (headers data))
    ++ "</tr></thead><tbody>" ++ concat_strings (body_rows data)
    ++ "</tbody></table>"
  /\ Forall2
       (fun row text =>
          exists cells,
            text = "<tr>" ++ concat_strings cells ++ "</tr>"
            /\ List.length cells = List.length (headers data)
            /\ Forall2 (fun key cell =>
                          cell = "<td>" ++ cell_content row key ++ "</td>")
                       (headers data) cells
            /\ (Forall (fun key => no_lt (cell_content row key) = true)
                       (headers data) ->
                occurrences "<td>" text = List.length (headers data)))
       data (body_rows data).
Proof.
  split; [apply json2html_body_rows |].
  unfold body_rows. generalize (headers data) as hs. intros hs.
  induction data as [|row data IH]; simpl; constructor; [| exact IH].
  exists (map (data_cell row) hs).
  split; [apply body_row_cells |].
  split; [apply length_map |].
  split; [| apply occurrences_body_row].
  clear. induction hs as [|key hs IH]; simpl; constructor; [reflexivity | exact IH].
Qed.

(** A witness of C4: two records with different keys, no ["<"] in any
    cell. *)
Lemma row_cell_count_witness :
  let data := [[("a", VString "x")]; [("b", VBoolean true); ("c", VNull)]] in
  Forall (fun text => occurrences "<td>" text = 3) (body_rows data).
Proof.
  intros data.
  destruct (row_cell_count data) as [_ H].
  inversion H as [|r1 t1 d1 b1 (c1 & _ & _ & _ & O1) H1]; subst.
  inversion H1 as [|r2 t2 d2 b2 (c2 & _ & _ & _ & O2) H2]; subst.
  inversion H2; subst.
  constructor; [apply O1; repeat constructor |].
  constructor; [apply O2; repeat constructor | constructor].
Defined.

(** C5.  On the empty input the header sequence is empty and the output is
    the wrapper with an empty header row and an empty body. *)
Theorem empty_input :
  headers [] = []
  /\ contents [] = []
  /\ json2html []
     = "<table data-user=" ++ String "034" "bingikarthik2014@gmail.com"
       ++ String "034" "><thead><tr>"
       ++ "</tr></thead><tbody>" ++ "</tbody></table>".
Proof. repeat split. Qed.

(** C7.  Nothing is escaped: the key of every record stands verbatim between
    [<th>] and [</th>] in the output, and every nonempty string value stands
    verbatim between [<td>] and [</td>], whatever characters they hold; so
    does the string form of every other truthy value. *)
Theorem no_escaping (data : list Record) :
  (forall row key,
      In row data -> In key (Object_keys row) ->
      occurs_in ("<th>" ++ key ++ "</th>") (json2html data))
  /\ (forall row key s,
        In row data -> GetOwnProperty row key = Some (VString s) -> s <> "" ->
        occurs_in ("<td>" ++ s ++ "</td>") (json2html data))
  /\ (forall row key v,
        In row data -> GetOwnProperty row key = Some v -> ToBoolean v = true ->
        occurs_in ("<td>" ++ ToString v ++ "</td>") (json2html data))
  /\ json2html [[("<b>&", VString ("<i>x</i> & " ++ String "034" "y>"))]]
     = opening ++ "<th><b>&</th>" ++ "</tr></thead><tbody>"
       ++ "<tr><td><i>x</i> & " ++ String "034" "y></td></tr>"
       ++ "</tbody></table>".
Proof.
  assert (V : forall row key v,
             In row data -> GetOwnProperty row key = Some v ->
             ToBoolean v = true ->
             occurs_in ("<td>" ++ ToString v ++ "</td>") (json2html data)).
  { intros row key v R O T.
    assert (K : In key (headers data)).
    { apply headers_In. exists row. split; [exact R |].
      now apply GetOwnProperty_In with v. }
    assert (C : data_cell row key = "<td>" ++ ToString v ++ "</td>").
    { unfold data_cell. now rewrite cell_content_Get, (Get_own _ _ _ O), T. }
    rewrite <- C, json2html_body_rows.
    do 3 apply occurs_in_append_r. apply occurs_in_append_l.
    apply occurs_in_trans with (body_row (headers data) row).
    - rewrite body_row_cells.
      apply occurs_in_append_r, occurs_in_append_l, occurs_in_concat.
      now apply in_map.
    - apply occurs_in_concat. unfold body_rows. now apply in_map. }
  split.
  { intros row key R K. rewrite json2html_body_rows.
    apply occurs_in_append_r, occurs_in_append_l, occurs_in_concat.
    change ("<th>" ++ key ++ "</th>") with (header_cell key).
    apply in_map, headers_In. now exists row. }
  split; [| split; [exact V | reflexivity]].
  intros row key s R O N.
  apply (V row key (VString s) R O). simpl.
  destruct s; [congruence | reflexivity].
Qed.

(** A witness of C7: a key and a value made of markup characters. *)
Lemma no_escaping_witness :
  let data := [[("<k>", VString "a&b<c")]] in
  occurs_in "<th><k></th>" (json2html data)
  /\ occurs_in "<td>a&b<c</td>" (json2html data).
Proof.
  intros data.
  destruct (no_escaping data) as (H & S & _ & _).
  split.
  - apply (H [("<k>", VString "a&b<c")] "<k>"); simpl; tauto.
  - apply (S [("<k>", VString "a&b<c")] "<k>" "a&b<c");
      [simpl; tauto | reflexivity | discriminate].
Defined.

(* ===================================================================== *)
(** ** Changing one value *)
(* ===================================================================== *)

Section Locality.

Lemma map_ext_nth {A B : Type} (f : A -> B) (l l' : list A) :
  List.length l = List.length l' ->
  (forall j y y',
      nth_error l j = Some y -> nth_error l' j = Some y' -> f y = f y') ->
  map f l = map f l'.
Proof.
  revert l'.
  induction l as [|x l IH]; intros [|x' l'] L H; simpl in L; try discriminate.
  - reflexivity.
  - simpl. f_equal.
    + now apply (H 0).
    + apply IH; [lia |]. intros j y y'. apply (H (S j)).
Qed.

(** Two lists that agree under [f] everywhere but at index [i] have the
    same image before and after that index. *)
Lemma map_differ_at {A B : Type} (f : A -> B) (i : nat) :
  forall (l l' : list A) (x x' : A),
    List.length l = List.length l' ->
    nth_error l i = Some x -> nth_error l' i = Some x' ->
    (forall j y y',
        j <> i -> nth_error l j = Some y -> nth_error l' j = Some y' ->
        f y = f y') ->
    exists pre post,
      map f l = (pre ++ f x :: post)%list
      /\ map f l' = (pre ++ f x' :: post)%list.
Proof.
  induction i as [|i IH]; intros [|y l] [|y' l'] x x' L N N' H;
    simpl in *; try discriminate.
  - injection N as ->. injection N' as ->.
    exists [], (map f l). split; [reflexivity |]. simpl. f_equal.
    symmetry. apply map_ext_nth; [lia |].
    intros j z z' Z Z'. apply (H (S j)); [lia | exact Z | exact Z'].
  - destruct (IH l l' x x') as (pre & post & E & E'); [lia | exact N | exact N' | |].
    + intros j z z' D Z Z'. apply (H (S j)); [lia | exact Z | exact Z'].
    + exists (f y :: pre), post. simpl. rewrite E, E'.
      split; [reflexivity |]. f_equal. symmetry.
      apply (H 0); [lia | reflexivity | reflexivity].
Qed.

Lemma concat_strings_middle (pre post : list string) (x : string) :
  concat_strings (pre ++ x :: post)%list
  = concat_strings pre ++ x ++ concat_strings post.
Proof. now rewrite concat_strings_app. Qed.

(** Records with the same keys, record for record, give the same
    headers. *)
Lemma headers_same_keys (data data' : list Record) :
  Forall2 (fun r r' => Object_keys r = Object_keys r') data data' ->
  headers data' = headers data.
Proof.
  intros F. unfold headers. f_equal. rewrite !flatMap_concat. f_equal.
  induction F as [|r r' d d' E _ IH]; simpl; [reflexivity |].
  now rewrite E, IH.
Qed.

(** A cell depends on its record through the own property of its key
    only. *)
Lemma data_cell_same_property (r r' : Record) (k : string) :
  GetOwnProperty r k = GetOwnProperty r' k -> data_cell r k = data_cell r' k.
Proof.
  intros E. unfold data_cell, cell_content, Get. now rewrite E.
Qed.

(** Two records that agree off [key] give rows that differ in the cell of
    [key] only. *)
Lemma body_row_differ_at (hs : list string) (r r' : Record) (key : string) :
  NoDup hs -> In key hs ->
  (forall k, k <> key -> GetOwnProperty r k = GetOwnProperty r' k) ->
  exists left right,
    body_row hs r = left ++ data_cell r key ++ right
    /\ body_row hs r' = left ++ data_cell r' key ++ right.
Proof.
  intros U K H.
  destruct (in_split _ _ K) as (h1 & h2 & ->).
  apply NoDup_remove_2 in U.
  assert (E1 : map (data_cell r') h1 = map (data_cell r) h1).
  { apply map_ext_in. intros k Hk. symmetry.
    apply data_cell_same_property, H. intros ->.
    apply U, in_or_app. now left. }
  assert (E2 : map (data_cell r') h2 = map (data_cell r) h2).
  { apply map_ext_in. intros k Hk. symmetry.
    apply data_cell_same_property, H. intros ->.
    apply U, in_or_app. now right. }
  exists ("<tr>" ++ concat_strings (map (data_cell r) h1)),
    (concat_strings (map (data_cell r) h2) ++ "</tr>").
  rewrite !body_row_cells, !map_app. simpl map.
  rewrite !concat_strings_middle, E1, E2, !append_assoc.
  split; reflexivity.
Qed.

End Locality.

(** C10.  Take two inputs with the same keys record for record, and the same
    value under every key of every record except the key [key] of record
    [i].  Then the headers are the same, every cell other than the cell of
    [key] in row [i] is the same, and the two outputs are one common text
    before that cell, the cell, and one common text after it. *)
Theorem single_value_locality
    (data data' : list Record) (i : nat) (row row' : Record) (key : string) :
  Forall2 (fun r r' => Object_keys r = Object_keys r') data data' ->
  nth_error data i = Some row ->
  nth_error data' i = Some row' ->
  In key (Object_keys row) ->
  (forall j r r' k,
      nth_error data j = Some r -> nth_error data' j = Some r' ->
      j <> i \/ k <> key ->
      GetOwnProperty r k = GetOwnProperty r' k) ->
  headers data' = headers data
  /\ List.length (body_rows data') = List.length (body_rows data)
  /\ (forall j r r' k,
        nth_error data j = Some r -> nth_error data' j = Some r' ->
        j <> i \/ k <> key ->
        data_cell r k = data_cell r' k)
  /\ exists before after,
       json2html data = before ++ data_cell row key ++ after
       /\ json2html data' = before ++ data_cell row' key ++ after.
Proof.
  intros F N N' K H.
  pose proof (headers_same_keys _ _ F) as EH.
  pose proof (Forall2_length F) as L.
  split; [exact EH |].
  split; [unfold body_rows; rewrite !length_map; lia |].
  split.
  { intros j r r' k R R' D. apply data_cell_same_property. now apply (H j). }
  assert (KH : In key (headers data)).
  { apply headers_In. exists row. split; [| exact K].
    now apply nth_error_In with i. }
  destruct (map_differ_at (body_row (headers data)) i data data' row row' L N N')
    as (pre & post & E & E').
  { intros j r r' D R R'.
    rewrite !body_row_cells. do 3 f_equal.
    apply map_ext. intros k.
    apply data_cell_same_property, (H j); [exact R | exact R' | now left]. }
  destruct (body_row_differ_at (headers data) row row' key
              (headers_NoDup data) KH) as (l & r & B & B').
  { intros k D. apply (H i); [exact N | exact N' | now right]. }
  exists (opening ++ concat_strings (map header_cell (headers data))
          ++ "</tr></thead><tbody>" ++ concat_strings pre ++ l),
    (r ++ concat_strings post ++ "</tbody></table>").
  rewrite !json2html_body_rows. unfold body_rows.
  rewrite EH, E, E', !concat_strings_middle, B, B', !append_assoc.
  split; reflexivity.
Qed.

(** A witness of C10: the value under [b] in the second of two records
    goes from [2] to the string ["<new>"]. *)
Lemma single_value_locality_witness :
  let data := [[("a", VString "x")];
               [("a", VNull); ("b", VNumber (Finite false 2 1))]] in
  let data' := [[("a", VString "x")];
                [("a", VNull); ("b", VString "<new>")]] in
  headers data' = headers data
  /\ exists before after,
       json2html data = before ++ "<td>2</td>" ++ after
       /\ json2html data' = before ++ "<td><new></td>" ++ after.
Proof.
  intros data data'.
  destruct (single_value_locality data data' 1
              [("a", VNull); ("b", VNumber (Finite false 2 1))]
              [("a", VNull); ("b", VString "<new>")] "b")
    as (E & _ & _ & X).
  - repeat constructor.
  - reflexivity.
  - reflexivity.
  - simpl. tauto.
  - intros j r r' k R R' D.
    destruct j as [|[|j]]; simpl in R, R'.
    + injection R as <-. injection R' as <-. reflexivity.
    + injection R as <-. injection R' as <-.
      destruct D as [D | D]; [congruence |].
      cbn [GetOwnProperty].
      destruct (String.eqb "a" k); [reflexivity |].
      destruct (String.eqb_spec "b" k); [congruence | reflexivity].
    + destruct j; discriminate.
  - split; [exact E | exact X].
Defined.

(* ===================================================================== *)
(** ** Effects *)
(* ===================================================================== *)

Section Effects.

Lemma skipn_nth_error {A : Type} (l : list A) (k : nat) (x : A) :
  nth_error l k = Some x -> skipn k l = x :: skipn (S k) l.
Proof.
  revert l. induction k as [|k IH]; intros [|y l] H; simpl in H;
    try discriminate.
  - now injection H as ->.
  - change (skipn (S k) (y :: l)) with (skipn k l).
    change (skipn (S (S k)) (y :: l)) with (skipn (S k) l).
    now apply IH.
Qed.

(** The loop of [map] with a callback that only reads [Object.prototype]:
    it returns the images of the elements it visits and hands the store
    back. *)
Lemma map_loop_reads {B : Type} (callback : Record -> Heap.M B)
    (f : Record -> Record -> B) :
  (forall x st, callback x st = (f (Heap.prototype st) x, st)) ->
  forall count k (st : Heap.Store),
    Heap.map_loop callback k count st
    = (map (f (Heap.prototype st)) (firstn count (skipn k (Heap.array st))),
       st).
Proof.
  intros P. induction count as [|c IH]; intros k st; [reflexivity |].
  cbn [Heap.map_loop]. unfold Heap.bind at 1. unfold Heap.GetIndex.
  destruct (nth_error (Heap.array st) k) as [x|] eqn:N.
  - unfold Heap.bind. rewrite P, IH.
    rewrite (skipn_nth_error _ _ _ N). reflexivity.
  - rewrite IH. apply nth_error_None in N.
    rewrite !skipn_all2 by lia. now rewrite !firstn_nil.
Qed.

Lemma Array_map_reads {B : Type} (callback : Record -> Heap.M B)
    (f : Record -> Record -> B) :
  (forall x st, callback x st = (f (Heap.prototype st) x, st)) ->
  forall st : Heap.Store,
    Heap.Array_map callback st
    = (map (f (Heap.prototype st)) (Heap.array st), st).
Proof.
  intros P st. unfold Heap.Array_map, Heap.bind, Heap.LengthOfArrayLike.
  rewrite (map_loop_reads callback f P). simpl skipn.
  now rewrite firstn_all.
Qed.

Lemma Array_flatMap_reads {B : Type}
    (callback : Record -> Heap.M (list B)) (f : Record -> Record -> list B) :
  (forall x st, callback x st = (f (Heap.prototype st) x, st)) ->
  forall st : Heap.Store,
    Heap.Array_flatMap callback st
    = (flatMap (f (Heap.prototype st)) (Heap.array st), st).
Proof.
  intros P st. unfold Heap.Array_flatMap, Heap.bind.
  rewrite (Array_map_reads callback f P). unfold Heap.ret.
  now rewrite flatMap_concat.
Qed.

Lemma map_local_reads {A B : Type} (callback : A -> Heap.M B)
    (f : Record -> A -> B) :
  (forall x st, callback x st = (f (Heap.prototype st) x, st)) ->
  forall (a : list A) (st : Heap.Store),
    Heap.map_local callback a st = (map (f (Heap.prototype st)) a, st).
Proof.
  intros P a st. induction a as [|x a IH]; [reflexivity |].
  cbn [Heap.map_local]. unfold Heap.bind. now rewrite P, IH.
Qed.

(** Run against a store, the function returns the table of the headers of
    the array and of the cells read with [Object.prototype] as it is, and
    hands the store back. *)
Lemma Heap_json2html_run (st : Heap.Store) :
  Heap.json2html st
  = (table (headers (Heap.array st))
           (contents_in (Heap.prototype st) (Heap.array st)), st).
Proof.
  unfold Heap.json2html. unfold Heap.bind at 1.
  rewrite (Array_flatMap_reads _ (fun _ => Object_keys)) by reflexivity.
  fold (headers (Heap.array st)).
  unfold Heap.bind at 1.
  rewrite (Array_map_reads _
             (fun proto row =>
                "<tr>"
                ++ join ""
                     (map (fun header =>
                             "<td>" ++ rendered (Heap.Get_in proto row header)
                               ++ "</td>") (headers (Heap.array st)))
                ++ "</tr>")).
  - unfold Heap.ret, table, contents_in, opening. f_equal.
    rewrite !join_empty, !map_map, !append_assoc.
    rewrite (map_ext
               (fun row =>
                  "<tr>"
                  ++ join ""
                       (map (fun header =>
                               "<td>"
                               ++ rendered
                                    (Heap.Get_in (Heap.prototype st) row header)
                               ++ "</td>") (headers (Heap.array st)))
                  ++ "</tr>")
               (fun row =>
                  "<tr>"
                  ++ concat_strings
                       (map (fun c => "<td>" ++ c ++ "</td>")
                            (map (fun header =>
                                    rendered
                                      (Heap.Get_in (Heap.prototype st) row
                                         header))
                                 (headers (Heap.array st))))
                  ++ "</tr>")).
    + reflexivity.
    + intros row. now rewrite join_empty, map_map.
  - intros row st'. unfold Heap.bind.
    rewrite (map_local_reads _
               (fun proto header =>
                  "<td>" ++ rendered (Heap.Get_in proto row header) ++ "</td>"))
      by reflexivity.
    reflexivity.
Qed.

(** The list [Heap.standard] holds the table [Object_prototype]. *)
Lemma standard_lookup (key : string) :
  GetOwnProperty Heap.standard key = Object_prototype key.
Proof.
  unfold Heap.standard. cbn [GetOwnProperty].
  repeat match goal with
         | |- context [String.eqb ?name key] =>
             destruct (String.eqb_spec name key) as [<- | ?];
             [reflexivity |]
         end.
  unfold Object_prototype. cbn [existsb].
  repeat match goal with
         | H : ?name <> key |- _ =>
             rewrite (proj2 (String.eqb_neq key name)) by congruence; clear H
         end.
  reflexivity.
Qed.

Lemma Get_in_standard (row : Record) (key : string) :
  Heap.Get_in Heap.standard row key = Get row key.
Proof. unfold Heap.Get_in, Get. now rewrite standard_lookup. Qed.

Lemma contents_in_standard (data : list Record) :
  contents_in Heap.standard data = contents data.
Proof.
  unfold contents_in, contents.
  apply map_ext. intros row. apply map_ext. intros h.
  now rewrite Get_in_standard.
Qed.

(** In a realm no script has touched, the function run against the store
    returns what [json2html] computes. *)
Lemma Heap_json2html_standard (data : list Record) :
  Heap.json2html (Heap.mkStore data Heap.standard)
  = (json2html data, Heap.mkStore data Heap.standard).
Proof.
  rewrite Heap_json2html_run. cbn [Heap.array Heap.prototype].
  now rewrite contents_in_standard, json2html_table.
Qed.



End Effects.

(** C8.  The function is deterministic and free of effects, and a call
    depends on no state outside its argument.  The source reads
    [row[header]], which consults the global [Object.prototype] for a key
    the record lacks.  On the records [{note: "x"}] and [{}], in a realm no
    script has touched, a first call gives an empty second cell; after the
    statement [Object.prototype.note = "leak"], a second call on the same
    array, which is unchanged, gives the cell [leak].  The two calls on the
    same input return different strings. *)
Theorem prototype_state_leaks :
  let data := [[("note", VString "x")]; []] in
  let first :=
    opening ++ "<th>note</th>" ++ "</tr></thead><tbody>"
    ++ "<tr><td>x</td></tr>" ++ "<tr><td></td></tr>" ++ "</tbody></table>" in
  let second :=
    opening ++ "<th>note</th>" ++ "</tr></thead><tbody>"
    ++ "<tr><td>x</td></tr>" ++ "<tr><td>leak</td></tr>"
    ++ "</tbody></table>" in
  Heap.bind Heap.json2html
    (fun out1 =>
       Heap.bind (Heap.SetPrototypeProperty "note" (VString "leak"))
         (fun _ =>
            Heap.bind Heap.json2html
              (fun out2 => Heap.ret (out1, out2))))
    (Heap.mkStore data Heap.standard)
  = ((first, second),
     Heap.mkStore data (Heap.standard ++ [("note", VString "leak")])%list)
  /\ first <> second
  /\ json2html data = first.
Proof.
  split; [reflexivity |].
  split; [| reflexivity].
  apply String.eqb_neq. reflexivity.
Qed.



(* ===================================================================== *)
(** ** Growing the input *)
(* ===================================================================== *)

Section Growing.

Lemma scan_app (d1 d2 : list Record) :
  scan (d1 ++ d2)%list = (scan d1 ++ scan d2)%list.
Proof. unfold scan. now rewrite map_app, concat_app. Qed.

Lemma first_seen_all_seen (keys seen : list string) :
  (forall k, In k keys -> In k seen) -> first_seen seen keys = [].
Proof.
  intros H.
  destruct (first_seen seen keys) as [|k rest] eqn:E; [reflexivity |].
  assert (I : In k (first_seen seen keys)) by (rewrite E; now left).
  apply first_seen_In in I. destruct I as [I N]. now apply H in I.
Qed.

Lemma first_seen_fresh (keys seen : list string) :
  NoDup keys -> (forall k, In k keys -> ~ In k seen) ->
  first_seen seen keys = keys.
Proof.
  intros U. revert seen.
  induction U as [|k keys N U IH]; intros seen H; simpl; [reflexivity |].
  destruct (existsb (String.eqb k) seen) eqn:E.
  - apply existsb_eqb_In in E. exfalso. apply (H k); [now left | exact E].
  - f_equal. apply IH. intros y Y [<- | S]; [contradiction |].
    apply (H y); [now right | exact S].
Qed.

Lemma headers_app (d1 d2 : list Record) :
  headers (d1 ++ d2)%list
  = (headers d1 ++ first_seen (headers d1) (scan d2))%list.
Proof.
  rewrite !headers_first_seen, scan_app, first_seen_app, app_nil_r.
  f_equal. apply first_seen_ext. intros y.
  rewrite first_seen_In. simpl. tauto.
Qed.

Lemma headers_app_known (d1 d2 : list Record) :
  (forall row k, In row d2 -> In k (Object_keys row) -> In k (headers d1)) ->
  headers (d1 ++ d2)%list = headers d1.
Proof.
  intros H. rewrite headers_app, first_seen_all_seen; [apply app_nil_r |].
  intros k K. apply in_scan in K. destruct K as (row & R & K).
  now apply (H row).
Qed.

End Growing.

(** X1.  Records appended to the input never move or remove a column: the
    headers of the longer input are the headers of the shorter one, followed
    by the keys that only the appended records bring, each once, in the
    order they are first met. *)
Theorem headers_append (d1 d2 : list Record) :
  headers (d1 ++ d2)%list
  = (headers d1 ++ first_seen (headers d1) (scan d2))%list
  /\ NoDup (first_seen (headers d1) (scan d2))
  /\ (forall k,
        In k (first_seen (headers d1) (scan d2)) <->
        (exists row, In row d2 /\ In k (Object_keys row))
        /\ ~ In k (headers d1))
  /\ (forall j k,
        nth_error (headers d1) j = Some k ->
        nth_error (headers (d1 ++ d2)%list) j = Some k).
Proof.
  split; [apply headers_app |].
  split; [apply first_seen_NoDup |].
  split.
  - intros k. now rewrite first_seen_In, in_scan.
  - intros j k N. rewrite headers_app, nth_error_app1; [exact N |].
    apply nth_error_Some. congruence.
Qed.

(** A witness of X1: the second column stays second when a record with a
    new key and an old one is appended. *)
Lemma headers_append_witness :
  nth_error (headers ([[("a", VNull); ("b", VNull)]]
                      ++ [[("c", VNull); ("a", VNull)]])%list) 1
  = Some "b".
Proof.
  destruct (headers_append [[("a", VNull); ("b", VNull)]]
              [[("c", VNull); ("a", VNull)]]) as (_ & _ & _ & H).
  apply (H 1 "b"). reflexivity.
Defined.

(** X2.  Appending records whose keys are all headers already leaves the
    text of the table up to the end of the body as it was and adds one row
    per appended record before the closing. *)
Theorem json2html_append_known_keys (d1 d2 : list Record) :
  (forall row k, In row d2 -> In k (Object_keys row) -> In k (headers d1)) ->
  headers (d1 ++ d2)%list = headers d1
  /\ exists before,
       json2html d1 = before ++ "</tbody></table>"
       /\ json2html (d1 ++ d2)%list
          = before ++ concat_strings (map (body_row (headers d1)) d2)
            ++ "</tbody></table>".
Proof.
  intros H. pose proof (headers_app_known d1 d2 H) as E.
  split; [exact E |].
  exists (opening ++ concat_strings (map header_cell (headers d1))
          ++ "</tr></thead><tbody>" ++ concat_strings (body_rows d1)).
  rewrite !json2html_body_rows. unfold body_rows.
  rewrite E, map_app, concat_strings_app, !append_assoc.
  split; reflexivity.
Qed.

(** A witness of X2: a record with the key [a] alone after a record with
    the keys [a] and [b]. *)
Lemma json2html_append_known_keys_witness :
  exists before,
    json2html [[("a", VString "x"); ("b", VString "y")]]
    = before ++ "</tbody></table>"
    /\ json2html ([[("a", VString "x"); ("b", VString "y")]]
                  ++ [[("a", VString "z")]])%list
       = before ++ "<tr><td>z</td><td></td></tr>" ++ "</tbody></table>".
Proof.
  destruct (json2html_append_known_keys
              [[("a", VString "x"); ("b", VString "y")]]
              [[("a", VString "z")]]) as (_ & before & E & E').
  - intros row k [<- | []] [<- | []]. simpl. tauto.
  - exists before. split; [exact E | exact E'].
Defined.

(** X3.  The header sequence is the scan of the keys itself exactly when no
    key occurs twice in the scan; otherwise it is strictly shorter. *)
Theorem headers_scan_iff (data : list Record) :
  (headers data = scan data <-> NoDup (scan data))
  /\ List.length (headers data) <= List.length (scan data)
  /\ (List.length (headers data) = List.length (scan data) ->
      headers data = scan data).
Proof.
  assert (I : incl (headers data) (scan data)).
  { intros k K. rewrite headers_first_seen in K.
    now apply first_seen_In in K. }
  split; [split |].
  - intros E. rewrite <- E. apply headers_NoDup.
  - intros U. rewrite headers_first_seen.
    apply first_seen_fresh; [exact U | intros k _ []].
  - split.
    + apply NoDup_incl_length; [apply headers_NoDup | exact I].
    + intros L. rewrite headers_first_seen. apply first_seen_fresh.
      * apply NoDup_incl_NoDup with (headers data);
          [apply headers_NoDup | lia | exact I].
      * intros k _ [].
Qed.

(** A witness of X3: two records with the keys [a], [b] and [c]. *)
Lemma headers_scan_iff_witness :
  headers [[("a", VNull); ("b", VNull)]; [("c", VNull)]]
  = scan [[("a", VNull); ("b", VNull)]; [("c", VNull)]].
Proof.
  destruct (headers_scan_iff [[("a", VNull); ("b", VNull)]; [("c", VNull)]])
    as (_ & _ & H).
  apply H. reflexivity.
Defined.

(** X8.  The set of columns does not depend on the order of the records:
    reordering the input permutes the headers. *)
Theorem headers_permutation (data data' : list Record) :
  Permutation data data' ->
  Permutation (headers data) (headers data')
  /\ List.length (headers data) = List.length (headers data').
Proof.
  intros P.
  assert (Q : Permutation (headers data) (headers data')).
  { apply NoDup_Permutation; [apply headers_NoDup | apply headers_NoDup |].
    intros k. rewrite !headers_In.
    split; intros (row & R & K); exists row; split; try exact K.
    - now apply Permutation_in with data.
    - apply Permutation_in with data'; [now apply Permutation_sym | exact R]. }
  split; [exact Q | now apply Permutation_length].
Qed.

(** A witness of X8: two records swapped. *)
Lemma headers_permutation_witness :
  Permutation (headers [[("a", VNull)]; [("b", VNull)]])
              (headers [[("b", VNull)]; [("a", VNull)]]).
Proof.
  destruct (headers_permutation [[("a", VNull)]; [("b", VNull)]]
              [[("b", VNull)]; [("a", VNull)]]) as [H _].
  - apply perm_swap.
  - exact H.
Defined.

(* ===================================================================== *)
(** ** Where the cells are the specified ones *)
(* ===================================================================== *)

(** X4.  The cell the source writes is the cell the specification words
    exactly when the record owns the key or [Object.prototype] does not
    define it.  An own value wins over an inherited one even when it is
    falsy; an absent key that [Object.prototype] defines shows the inherited
    object. *)
Theorem cell_meets_spec_iff (row : Record) (key : string) :
  (cell_content row key = spec_cell_content row key <->
   In key (Object_keys row) \/ Object_prototype key = None)
  /\ (forall v, GetOwnProperty row key = Some v -> ToBoolean v = false ->
                cell_content row key = "")
  /\ (forall v, GetOwnProperty row key = None ->
                Object_prototype key = Some v ->
                cell_content row key = ToString v
                /\ cell_content row key <> "").
Proof.
  split; [| split].
  - split.
    + intros E.
      destruct (GetOwnProperty row key) as [v|] eqn:O.
      * left. now apply GetOwnProperty_In with v.
      * destruct (Object_prototype key) as [v|] eqn:P; [| now right].
        destruct (cell_content_inherited row key v O P) as (_ & N & S).
        congruence.
    + intros [K | P].
      * now apply cell_content_spec_own.
      * now apply cell_content_spec.
  - intros v O F. now rewrite cell_content_Get, (Get_own _ _ _ O), F.
  - intros v O P.
    destruct (cell_content_inherited row key v O P) as (E & N & _).
    now split.
Qed.

(** A witness of X4: the key [valueOf], owned with the value [0] and
    absent. *)
Lemma cell_meets_spec_iff_witness :
  cell_content [("valueOf", VNumber (Zero false))] "valueOf" = ""
  /\ cell_content [] "valueOf" = "function valueOf() { [native code] }".
Proof.
  split.
  - destruct (cell_meets_spec_iff [("valueOf", VNumber (Zero false))] "valueOf")
      as (_ & H & _).
    apply (H (VNumber (Zero false))); reflexivity.
  - destruct (cell_meets_spec_iff [] "valueOf") as (_ & _ & H).
    apply (H (VNative "valueOf")); reflexivity.
Defined.

(** X5.  When every header is a key that [Object.prototype] does not define,
    or a key that every record owns, the output is the table of the
    specified cells: empty for an absent or falsy value, the string form of
    the value otherwise. *)
Theorem json2html_meets_spec (data : list Record) :
  (forall h, In h (headers data) ->
             Object_prototype h = None
             \/ forall row, In row data -> In h (Object_keys row)) ->
  contents data = spec_contents data
  /\ json2html data = table (headers data) (spec_contents data).
Proof.
  intros H.
  assert (E : contents data = spec_contents data).
  { unfold contents, spec_contents.
    apply map_ext_in. intros row R.
    apply map_ext_in. intros h K.
    destruct (H h K) as [P | O].
    - now apply cell_content_spec.
    - apply cell_content_spec_own. now apply O. }
  split; [exact E |].
  now rewrite json2html_table, E.
Qed.

(** A witness of X5: the header [toString] is owned by both records, the
    header [b] by one. *)
Lemma json2html_meets_spec_witness :
  let data := [[("toString", VNull); ("b", VBoolean true)];
               [("toString", VString "s")]] in
  json2html data
  = table ["toString"; "b"] [[""; "true"]; ["s"; ""]].
Proof.
  intros data.
  destruct (json2html_meets_spec data) as [_ E]; [| exact E].
  intros h [<- | [<- | []]].
  - right. intros row [<- | [<- | []]]; simpl; tauto.
  - left. reflexivity.
Defined.

(** X6.  On records that all have the same keys, none of them twice, the
    headers are those keys, and the output is the table of the specified
    cells whatever the keys are called. *)
Theorem uniform_records (data : list Record) (ks : list string) :
  data <> [] -> NoDup ks ->
  (forall row, In row data -> Object_keys row = ks) ->
  headers data = ks
  /\ json2html data
     = table ks (map (fun row => map (spec_cell_content row) ks) data).
Proof.
  intros N U H.
  assert (E : headers data = ks).
  { destruct data as [|row data]; [congruence |].
    change (row :: data) with ([row] ++ data)%list.
    assert (E1 : headers [row] = ks).
    { rewrite headers_first_seen. unfold scan. simpl.
      rewrite app_nil_r, (H row) by now left.
      apply first_seen_fresh; [exact U | intros k _ []]. }
    rewrite headers_app_known; [exact E1 |].
    intros r k R K. rewrite E1, <- (H r); [exact K | now right]. }
  split; [exact E |].
  rewrite json2html_table, E. f_equal.
  unfold contents. rewrite E.
  apply map_ext_in. intros row R.
  apply map_ext_in. intros h K.
  apply cell_content_spec_own. now rewrite (H row R).
Qed.

(** A witness of X6: two records with the keys [constructor] and [n]. *)
Lemma uniform_records_witness :
  json2html [[("constructor", VNull); ("n", VNumber (Finite false 1 1))];
             [("constructor", VString "c"); ("n", VNumber (Zero false))]]
  = table ["constructor"; "n"] [[""; "1"]; ["c"; ""]].
Proof.
  destruct (uniform_records
              [[("constructor", VNull); ("n", VNumber (Finite false 1 1))];
               [("constructor", VString "c"); ("n", VNumber (Zero false))]]
              ["constructor"; "n"]) as [_ E].
  - discriminate.
  - apply NoDup_cons; [simpl; intros [H | []]; discriminate |].
    apply NoDup_cons; [intros [] | apply NoDup_nil].
  - intros row [<- | [<- | []]]; reflexivity.
  - exact E.
Defined.

(* ===================================================================== *)
(** ** What the output does not tell apart *)
(* ===================================================================== *)

Section Rendering.

Lemma rendered_falsy (v : value) : ToBoolean v = false -> rendered v = "".
Proof. intros F. unfold rendered, logical_or. now rewrite F. Qed.

Lemma rendered_truthy (v : value) :
  ToBoolean v = true -> rendered v = ToString v.
Proof. intros T. unfold rendered, logical_or. now rewrite T. Qed.

Lemma rendered_string (s : string) : rendered (VString s) = s.
Proof. destruct s; reflexivity. Qed.

Lemma same_rendering_keys (r r' : Record) :
  same_rendering r r' -> Object_keys r = Object_keys r'.
Proof.
  induction 1 as [|[k v] [k' v'] r r' [E _] _ IH]; simpl in *;
    [reflexivity | now rewrite E, IH].
Qed.

Lemma same_rendering_cell (r r' : Record) (key : string) :
  same_rendering r r' -> cell_content r key = cell_content r' key.
Proof.
  unfold cell_content, Get.
  induction 1 as [|[k v] [k' v'] r r' [E R] _ IH]; simpl in *;
    [reflexivity |].
  subst k'. destruct (String.eqb k key); [exact R | exact IH].
Qed.

Lemma same_rendering_output (data data' : list Record) :
  Forall2 same_rendering data data' -> json2html data = json2html data'.
Proof.
  intros F.
  assert (EH : headers data' = headers data).
  { apply headers_same_keys.
    induction F as [|r r' d d' R _ IH]; constructor;
      [now apply same_rendering_keys | exact IH]. }
  rewrite !json2html_body_rows. unfold body_rows. rewrite EH.
  assert (M : forall hs, map (body_row hs) data = map (body_row hs) data').
  { intros hs. clear EH.
    induction F as [|r r' d d' R _ IH]; simpl; [reflexivity |].
    rewrite IH. f_equal. rewrite !body_row_cells. do 3 f_equal.
    apply map_ext. intros k. unfold data_cell.
    now rewrite (same_rendering_cell r r' k R). }
  now rewrite M.
Qed.

End Rendering.

(** X7.  The output depends on a value only through the text it leaves in
    its cell: two inputs with the same keys, record for record, whose values
    leave the same texts give the same output, and a value leaves the empty
    text exactly when it is falsy.  So all falsy values ([null],
    [undefined], [false], [0], [NaN], the empty string) are
    interchangeable. *)
Theorem same_rendering_same_table (data data' : list Record) :
  Forall2 same_rendering data data' ->
  json2html data = json2html data'
  /\ (forall v, rendered v = "" <-> ToBoolean v = false).
Proof.
  intros F. split; [now apply same_rendering_output |].
  intros v. split.
  - intros E. destruct (ToBoolean v) eqn:T; [| reflexivity].
    rewrite (rendered_truthy v T) in E.
    now apply ToString_truthy_nonempty in T.
  - apply rendered_falsy.
Qed.

(** A witness of X7: [0] for [null], and the string ["1.5"] for the number
    [1.5]. *)
Lemma same_rendering_same_table_witness :
  json2html [[("a", VNumber (Zero false)); ("b", VNumber (Finite false 15 1))]]
  = json2html [[("a", VNull); ("b", VString "1.5")]].
Proof.
  apply same_rendering_same_table.
  constructor; [| constructor].
  constructor; [split; reflexivity |].
  constructor; [split; reflexivity | constructor].
Defined.

(** X9.  Converting every value to the text of its cell beforehand does not
    change the output: the table of the records and the table of the
    records with each value [v] replaced by the string [v || ''] are the
    same. *)
Theorem json2html_stringified (data : list Record) :
  json2html
    (map (map (fun p : string * value => (fst p, VString (rendered (snd p)))))
         data)
  = json2html data.
Proof.
  apply same_rendering_output.
  induction data as [|row data IH]; simpl; constructor; [| exact IH].
  clear. induction row as [|[k v] row IH]; simpl; constructor; [| exact IH].
  simpl. split; [reflexivity | apply rendered_string].
Qed.
